(** * Motor odometry node (tas_odometry/src/motor_odometry.cpp)

    A shallow embedding of the node's global state, of [encoder_callback],
    of the set-up part of [main] and of its spin loop, followed by the
    properties of the published messages.

    C++ [double] is IEEE-754 binary64 with round-to-nearest-even, which is
    what Rocq's primitive [float] implements; [int32_t] and [uint32_t] are
    integers in [Z] with the wrap-around written out. *)

From Stdlib Require Import ZArith Lia Bool String Floats Uint63.
From stdpp Require Import base list.

Set Default Proof Using "Type".
Local Open Scope Z_scope.

(** ** Machine numbers *)

Definition int32_min : Z := - 2 ^ 31.
Definition int32_max : Z := 2 ^ 31 - 1.
Definition uint32_modulus : Z := 2 ^ 32.

Definition in_int32 (z : Z) : Prop := int32_min <= z <= int32_max.
Definition in_uint32 (z : Z) : Prop := 0 <= z < uint32_modulus.

(** Two's-complement result of an [int32_t] operation whose exact value is [z]. *)
Definition wrap_int32 (z : Z) : Z :=
  (z + 2 ^ 31) mod uint32_modulus - 2 ^ 31.

(** Result of a [uint32_t] operation whose exact value is [z]. *)
Definition wrap_uint32 (z : Z) : Z := z mod uint32_modulus.

(** The cast [(double) z] of a 32-bit integer (every such integer is a
    binary64 number, so the cast is exact). *)
Definition double_of_Z (z : Z) : float :=
  match z with
  | Z0 => 0%float
  | Zpos _ => PrimFloat.of_uint63 (Uint63.of_Z z)
  | Zneg p => PrimFloat.opp (PrimFloat.of_uint63 (Uint63.of_Z (Zpos p)))
  end.

(** [a > b] on doubles: false as soon as one side is NaN. *)
Definition double_gt (a b : float) : bool := PrimFloat.ltb b a.

(** A double that is neither an infinity nor NaN. *)
Definition is_finite (f : float) : bool :=
  match PrimFloat.classify f with
  | FloatClass.NaN | FloatClass.PInf | FloatClass.NInf => false
  | _ => true
  end.

(** ** Messages

    Field names carry a prefix where two message types share a field name
    ([twist.twist.twist.linear.x] is
    [x (linear (twc_twist (tws_twist twist)))]). *)

(** [ros::Time]: seconds and nanoseconds, each a [uint32_t]. *)
Record Time : Type := mkTime { sec : Z; nsec : Z }.

(** [ros::Time::toSec]. *)
Definition toSec (t : Time) : float :=
  (double_of_Z (sec t) + 0x1.12e0be826d695p-30 * double_of_Z (nsec t))%float.

(** [std_msgs/Header]. *)
Record Header : Type := mkHeader {
  seq : Z;                 (* uint32 *)
  stamp : Time;
  hdr_frame_id : string
}.

(** [geometry_msgs/Vector3]. *)
Record Vector3 : Type := mkVector3 { x : float; y : float; z : float }.

(** [geometry_msgs/Twist]. *)
Record Twist : Type := mkTwist { linear : Vector3; angular : Vector3 }.

(** [geometry_msgs/TwistWithCovariance]; [covariance] is a
    [boost::array<double, 36>], row-major over (x, y, z, roll, pitch, yaw). *)
Record TwistWithCovariance : Type := mkTwistWithCovariance {
  twc_twist : Twist;
  covariance : list float
}.

(** [geometry_msgs/TwistWithCovarianceStamped]. *)
Record TwistWithCovarianceStamped : Type := mkTwistWithCovarianceStamped {
  header : Header;
  tws_twist : TwistWithCovariance
}.

(** [tas_odometry/Encoder]: [int32 encoder_ticks], [uint32 duration]
    (microseconds). *)
Record Encoder : Type := mkEncoder { encoder_ticks : Z; duration : Z }.

Definition Encoder_wf (e : Encoder) : Prop :=
  in_int32 (encoder_ticks e) /\ in_uint32 (duration e).

(** Value of a default-constructed message: every number is zero, every
    string empty. *)
Definition Vector3_zero : Vector3 := mkVector3 0 0 0.

Definition TwistWithCovarianceStamped_default : TwistWithCovarianceStamped :=
  mkTwistWithCovarianceStamped
    (mkHeader 0 (mkTime 0 0) EmptyString)
    (mkTwistWithCovariance (mkTwist Vector3_zero Vector3_zero)
                           (replicate 36 0%float)).

(** *** Assignments to fields of a message held in a variable *)

Definition set_stamp (t : Time) (m : TwistWithCovarianceStamped) :=
  mkTwistWithCovarianceStamped
    (mkHeader (seq (header m)) t (hdr_frame_id (header m))) (tws_twist m).

Definition set_seq (s : Z) (m : TwistWithCovarianceStamped) :=
  mkTwistWithCovarianceStamped
    (mkHeader s (stamp (header m)) (hdr_frame_id (header m))) (tws_twist m).

Definition set_hdr_frame_id (f : string) (m : TwistWithCovarianceStamped) :=
  mkTwistWithCovarianceStamped
    (mkHeader (seq (header m)) (stamp (header m)) f) (tws_twist m).

Definition set_covariance (c : list float) (m : TwistWithCovarianceStamped) :=
  mkTwistWithCovarianceStamped (header m)
    (mkTwistWithCovariance (twc_twist (tws_twist m)) c).

Definition set_linear_x (v : float) (m : TwistWithCovarianceStamped) :=
  let tw := twc_twist (tws_twist m) in
  mkTwistWithCovarianceStamped (header m)
    (mkTwistWithCovariance
       (mkTwist (mkVector3 v (y (linear tw)) (z (linear tw))) (angular tw))
       (covariance (tws_twist m))).

(** ** Global state of the node

    One field per global variable of the translation unit.  A publisher is
    represented by the sequence of messages handed to it so far, oldest
    first ([publish] copies the message it is given). *)
Record Node : Type := mkNode {
  pose_publisher : list TwistWithCovarianceStamped;
  encoder_publisher : list Z;           (* std_msgs/Int32 payloads *)
  twist : TwistWithCovarianceStamped;
  encoder_abs : Z;                      (* int32_t *)
  frame_id : string;
  ticks_per_meter : float;
  uncertainty_fixed : float;
  deadline_timeout : float;
  last_publish_time : float
}.

Definition set_twist (f : TwistWithCovarianceStamped -> TwistWithCovarianceStamped)
    (n : Node) : Node :=
  mkNode (pose_publisher n) (encoder_publisher n) (f (twist n)) (encoder_abs n)
         (frame_id n) (ticks_per_meter n) (uncertainty_fixed n)
         (deadline_timeout n) (last_publish_time n).

Definition set_encoder_abs (v : Z) (n : Node) : Node :=
  mkNode (pose_publisher n) (encoder_publisher n) (twist n) v
         (frame_id n) (ticks_per_meter n) (uncertainty_fixed n)
         (deadline_timeout n) (last_publish_time n).

Definition set_last_publish_time (t : float) (n : Node) : Node :=
  mkNode (pose_publisher n) (encoder_publisher n) (twist n) (encoder_abs n)
         (frame_id n) (ticks_per_meter n) (uncertainty_fixed n)
         (deadline_timeout n) t.

Definition pose_publish (m : TwistWithCovarianceStamped) (n : Node) : Node :=
  mkNode (pose_publisher n ++ [m]) (encoder_publisher n) (twist n)
         (encoder_abs n) (frame_id n) (ticks_per_meter n)
         (uncertainty_fixed n) (deadline_timeout n) (last_publish_time n).

Definition encoder_publish (d : Z) (n : Node) : Node :=
  mkNode (pose_publisher n) (encoder_publisher n ++ [d]) (twist n)
         (encoder_abs n) (frame_id n) (ticks_per_meter n)
         (uncertainty_fixed n) (deadline_timeout n) (last_publish_time n).

(** ** [encoder_callback]

    [now] is the value [ros::Time::now()] returns inside the call. *)
Definition encoder_callback (encoder_data : Encoder) (now : Time) (n : Node) : Node :=
  (* Update twist msg header *)
  let n := set_twist (set_stamp now) n in
  let n := set_twist (set_seq (wrap_uint32 (seq (header (twist n)) + 1))) n in
  (* Convert and save time of message arrival *)
  let time_now := toSec (stamp (header (twist n))) in
  let n := set_last_publish_time time_now n in
  (* Publish integrated/absolute encoder value *)
  let n := set_encoder_abs (wrap_int32 (encoder_abs n + encoder_ticks encoder_data)) n in
  let msg := encoder_abs n in
  let n := encoder_publish msg n in
  (* Convert length to meter *)
  let change_meter := (double_of_Z (encoder_ticks encoder_data) / ticks_per_meter n)%float in
  (* Convert time to seconds *)
  let change_time := (double_of_Z (duration encoder_data) / 1e6)%float in
  (* Calc velocity *)
  let vel := (change_meter / change_time)%float in
  (* Add it to message *)
  let n := set_twist (set_linear_x vel) n in
  (* Send out message *)
  pose_publish (twist n) n.

(** ** [main]: parameters and message set-up *)

(** The private parameters as the parameter server holds them when the node
    starts; [None] is a parameter that is not set. *)
Record Params : Type := mkParams {
  param_ticks_per_meter : option float;
  param_frame_id : option string;
  param_uncertainty_fixed : option float;
  param_deadline_timeout : option float
}.

(** [n.param<T>(name, var, default_val)]. *)
Definition param {T : Type} (stored : option T) (default_val : T) : T :=
  match stored with
  | Some v => v
  | None => default_val
  end.

(** 0.1 and 1e-3 as the compiler rounds them to binary64. *)
Definition default_deadline_timeout : float := 0x1.999999999999ap-4.
Definition default_uncertainty_fixed : float := 0x1.0624dd2f1a9fcp-10.

(** The globals before [main] runs. *)
Definition Node_static_init : Node :=
  mkNode [] [] TwistWithCovarianceStamped_default 0 EmptyString 0 0 0 0.

(** [covariance.assign(v)]: every element becomes [v]. *)
Definition assign (v : float) (elems : list float) : list float :=
  replicate (length elems) v.

(** [for (int i = 0; i < 36; i += 7) elems[i] = 999;] started at [i];
    [fuel] bounds the number of iterations. *)
Fixpoint fill_diagonal (fuel : nat) (i : Z) (elems : list float) : list float :=
  match fuel with
  | O => elems
  | S fuel' =>
      if i <? 36
      then fill_diagonal fuel' (i + 7) (<[Z.to_nat i := 999%float]> elems)
      else elems
  end.

Definition set_ticks_per_meter (v : float) (n : Node) : Node :=
  mkNode (pose_publisher n) (encoder_publisher n) (twist n) (encoder_abs n)
         (frame_id n) v (uncertainty_fixed n)
         (deadline_timeout n) (last_publish_time n).

Definition set_frame_id (v : string) (n : Node) : Node :=
  mkNode (pose_publisher n) (encoder_publisher n) (twist n) (encoder_abs n)
         v (ticks_per_meter n) (uncertainty_fixed n)
         (deadline_timeout n) (last_publish_time n).

Definition set_uncertainty_fixed (v : float) (n : Node) : Node :=
  mkNode (pose_publisher n) (encoder_publisher n) (twist n) (encoder_abs n)
         (frame_id n) (ticks_per_meter n) v
         (deadline_timeout n) (last_publish_time n).

Definition set_deadline_timeout (v : float) (n : Node) : Node :=
  mkNode (pose_publisher n) (encoder_publisher n) (twist n) (encoder_abs n)
         (frame_id n) (ticks_per_meter n) (uncertainty_fixed n)
         v (last_publish_time n).

(** Lines 76-90 of [main]. *)
Definition main_setup (params : Params) : Node :=
  let n := Node_static_init in
  (* ROS params *)
  let n := set_ticks_per_meter (param (param_ticks_per_meter params) 310%float) n in
  let n := set_frame_id (param (param_frame_id params) "base_link"%string) n in
  let n := set_uncertainty_fixed
             (param (param_uncertainty_fixed params) default_uncertainty_fixed) n in
  let n := set_deadline_timeout
             (param (param_deadline_timeout params) default_deadline_timeout) n in
  (* Setup twist message *)
  let n := set_twist (set_seq 0) n in
  let n := set_twist (set_hdr_frame_id (frame_id n)) n in
  (* Fill covariance *)
  let n := set_twist (fun m => set_covariance (assign 0 (covariance (tws_twist m))) m) n in
  let n := set_twist (fun m => set_covariance (fill_diagonal 36 0 (covariance (tws_twist m))) m) n in
  set_twist (fun m => set_covariance (<[0%nat := uncertainty_fixed n]> (covariance (tws_twist m))) m) n.

(** What starting the node results in: the spin loop is entered with the
    state that the set-up built, or the process ends before the loop. *)
Inductive Startup : Type :=
  | Running (n : Node)
  | Fatal.

(** [main] has no path from its first line to the loop that returns,
    throws or exits. *)
Definition startup (params : Params) : Startup := Running (main_setup params).

(** ** [main]: the spin loop *)

(** Lines 104-112: the zero-velocity republication.  [now1] and [now2] are
    the two readings of [ros::Time::now()], the second taken only when the
    deadline has passed. *)
Definition watchdog (now1 now2 : Time) (n : Node) : Node :=
  let time_now := toSec now1 in
  if double_gt (time_now - last_publish_time n)%float (deadline_timeout n) then
    let n := set_last_publish_time time_now n in
    let n := set_twist (set_stamp now2) n in
    let n := set_twist (set_seq (wrap_uint32 (seq (header (twist n)) + 1))) n in
    let n := set_twist (set_linear_x 0) n in
    pose_publish (twist n) n
  else n.

(** What one pass through the loop body meets: the encoder messages waiting
    in the subscriber queue, each with the clock reading its callback gets,
    and the clock readings of the deadline check. *)
Record Iteration : Type := mkIteration {
  pending : list (Encoder * Time);
  now1 : Time;
  now2 : Time
}.

(** [ros::spinOnce()]: the callback runs once per waiting message, oldest
    first. *)
Definition spinOnce (msgs : list (Encoder * Time)) (n : Node) : Node :=
  fold_left (fun n '(e, t) => encoder_callback e t n) msgs n.

Definition loop_body (it : Iteration) (n : Node) : Node :=
  watchdog (now1 it) (now2 it) (spinOnce (pending it) n).

(** [while (ros::ok()) { ... }], for the passes made until shutdown. *)
Definition main_loop (its : list Iteration) (n : Node) : Node :=
  fold_left (fun n it => loop_body it n) its n.

Definition main (params : Params) (its : list Iteration) : Node :=
  main_loop its (main_setup params).

(** ** Observations on a run *)

Definition default_params : Params := mkParams None None None None.

Definition linear_velocity_x (m : TwistWithCovarianceStamped) : float :=
  x (linear (twc_twist (tws_twist m))).

(** All encoder messages of a run, in the order their callbacks ran. *)
Definition events (its : list Iteration) : list Encoder :=
  concat (map (fun it => map fst (pending it)) its).

Definition tick_deltas (its : list Iteration) : list Z :=
  map encoder_ticks (events its).

Definition sum_Z (l : list Z) : Z := fold_right Z.add 0 l.

(** Running sums of [l] on top of [acc]. *)
Fixpoint prefix_sums (acc : Z) (l : list Z) : list Z :=
  match l with
  | [] => []
  | d :: l' => (acc + d) :: prefix_sums (acc + d) l'
  end.

Definition strictly_increasing (l : list Z) : Prop :=
  forall (i j : nat) (a b : Z),
    (i < j)%nat -> l !! i = Some a -> l !! j = Some b -> a < b.

(** Entry in row [r], column [c] of a 6x6 row-major matrix. *)
Definition entry (cov : list float) (r c : nat) : option float :=
  cov !! (6 * r + c)%nat.

(** ** Vocabulary of the properties *)

(** The velocity [encoder_callback] stores for an event, given the
    calibration constant in force. *)
Definition event_velocity (tpm : float) (e : Encoder) : float :=
  (double_of_Z (encoder_ticks e) / tpm / (double_of_Z (duration e) / 1e6))%float.

(** The deadline test of the loop. *)
Definition deadline_passed (now : Time) (n : Node) : bool :=
  double_gt (toSec now - last_publish_time n)%float (deadline_timeout n).

(** The state after a republication. *)
Definition republished (t1 t2 : Time) (n : Node) : Node :=
  let m := set_linear_x 0
             (set_seq (wrap_uint32 (seq (header (twist n)) + 1))
                (set_stamp t2 (twist n))) in
  mkNode (pose_publisher n ++ [m]) (encoder_publisher n) m (encoder_abs n)
         (frame_id n) (ticks_per_meter n) (uncertainty_fixed n)
         (deadline_timeout n) (toSec t1).

(** A calibration constant that is zero or negative. *)
Definition non_positive (v : float) : bool := PrimFloat.leb v 0.

(** A loop pass that finds no encoder message waiting. *)
Definition quiet (it : Iteration) : Prop := pending it = [].

(** The covariance layout: zero off the diagonal, [unc] for x, 999 for the
    other five axes. *)
Definition covariance_layout (unc : float) (cov : list float) : Prop :=
  length cov = 36%nat
  /\ forall r c : nat,
       (r < 6)%nat -> (c < 6)%nat ->
       entry cov r c
       = Some (if (r =? c)%nat
               then if (r =? 0)%nat then unc else 999%float
               else 0%float).

(** The twist components other than linear x. *)
Definition unmeasured_zero (m : TwistWithCovarianceStamped) : Prop :=
  y (linear (twc_twist (tws_twist m))) = 0%float
  /\ z (linear (twc_twist (tws_twist m))) = 0%float
  /\ angular (twc_twist (tws_twist m)) = Vector3_zero.

(** The sequence numbers of the estimates published so far, oldest first. *)
Definition pose_seqs (n : Node) : list Z :=
  map (fun m => seq (header m)) (pose_publisher n).

(** The number of estimates published so far. *)
Definition published (n : Node) : nat := length (pose_publisher n).

(** The counter in the message template counts the publications modulo 2^32
    and the k-th publication carries k modulo 2^32. *)
Definition seq_inv (n : Node) : Prop :=
  seq (header (twist n)) = wrap_uint32 (Z.of_nat (published n))
  /\ pose_seqs n = map wrap_uint32 (seqZ 1 (Z.of_nat (published n))).

(** A loop pass that handles one encoder event at clock reading 0 and then
    makes its deadline check at the same reading. *)
Definition busy_pass : Iteration :=
  mkIteration [(mkEncoder 1 1000, mkTime 0 0)] (mkTime 0 0) (mkTime 0 0).

(** The frame name in the header of a message. *)
Definition message_frame_id (m : TwistWithCovarianceStamped) : string :=
  hdr_frame_id (header m).

(** Quiet passes each of which finds the clock more than [d] past the clock
    reading of the republication before it, the first one past [last]. *)
Fixpoint all_crossings (d last : float) (its : list Iteration) : Prop :=
  match its with
  | [] => True
  | it :: its' =>
      quiet it
      /\ double_gt (toSec (now1 it) - last)%float d = true
      /\ all_crossings d (toSec (now1 it)) its'
  end.

(** The diagonal positions of the 6x6 row-major matrix. *)
Definition on_diagonal (k : nat) : bool := (k mod 7 =? 0)%nat.

(** * Properties *)

(** ** Worked examples *)

Example ex_velocity_forward :
  map linear_velocity_x
      (pose_publisher
         (encoder_callback (mkEncoder 310 1000000) (mkTime 5 0)
                           (main_setup default_params)))
  = [1%float].
Proof. vm_compute. reflexivity. Qed.

Example ex_setup_covariance :
  covariance (tws_twist (twist (main_setup default_params)))
  = [ default_uncertainty_fixed; 0; 0; 0; 0; 0;
      0; 999; 0; 0; 0; 0;
      0; 0; 999; 0; 0; 0;
      0; 0; 0; 999; 0; 0;
      0; 0; 0; 0; 999; 0;
      0; 0; 0; 0; 0; 999 ]%float.
Proof. vm_compute. reflexivity. Qed.

(** Start-up with the defaults, one event of 310 ticks in one second, then
    silence: the tick count 310 is broadcast once, the velocity 1.0 is
    published, and the silence is answered by a single zero velocity. *)
Example ex_event_then_silence :
  let n := main default_params
             [mkIteration [(mkEncoder 310 1000000, mkTime 5 0)]
                          (mkTime 5 1000) (mkTime 5 1100);
              mkIteration [] (mkTime 5 50000000) (mkTime 5 50000100);
              mkIteration [] (mkTime 5 200000000) (mkTime 5 200000100);
              mkIteration [] (mkTime 5 250000000) (mkTime 5 250000100)] in
  map linear_velocity_x (pose_publisher n) = [1%float; 0%float]
  /\ pose_seqs n = [1; 2]
  /\ encoder_publisher n = [310]
  /\ encoder_abs n = 310.
Proof. vm_compute. repeat split. Qed.

(** ** Facts about doubles *)

Lemma double_sub_zero (a : float) : (a - 0)%float = a.
Proof.
  apply Prim2SF_inj. rewrite FloatAxioms.sub_spec.
  change (Prim2SF 0) with (S754_zero false).
  unfold SF64sub, SFsub. destruct (Prim2SF a) as [[]| [] | |]; reflexivity.
Qed.

Lemma double_div_zero_not_finite (a : float) : is_finite (a / 0)%float = false.
Proof.
  unfold is_finite. rewrite FloatAxioms.classify_spec, FloatAxioms.div_spec.
  change (Prim2SF 0) with (S754_zero false).
  unfold SF64div, SFdiv.
  destruct (Prim2SF a) as [[]| [] | |[]]; reflexivity.
Qed.

(** ** What one call changes *)

Section Encoder_callback_effect.
Variables (e : Encoder) (now : Time) (n : Node).

Lemma encoder_callback_twist :
  twist (encoder_callback e now n)
  = set_linear_x (event_velocity (ticks_per_meter n) e)
      (set_seq (wrap_uint32 (seq (header (twist n)) + 1))
         (set_stamp now (twist n))).
Proof. reflexivity. Qed.

Lemma encoder_callback_pose_publisher :
  pose_publisher (encoder_callback e now n)
  = pose_publisher n ++ [twist (encoder_callback e now n)].
Proof. reflexivity. Qed.

Lemma encoder_callback_encoder_abs :
  encoder_abs (encoder_callback e now n)
  = wrap_int32 (encoder_abs n + encoder_ticks e).
Proof. reflexivity. Qed.

Lemma encoder_callback_encoder_publisher :
  encoder_publisher (encoder_callback e now n)
  = encoder_publisher n ++ [wrap_int32 (encoder_abs n + encoder_ticks e)].
Proof. reflexivity. Qed.

Lemma encoder_callback_last_publish_time :
  last_publish_time (encoder_callback e now n) = toSec now.
Proof. reflexivity. Qed.

Lemma encoder_callback_config :
  frame_id (encoder_callback e now n) = frame_id n
  /\ ticks_per_meter (encoder_callback e now n) = ticks_per_meter n
  /\ uncertainty_fixed (encoder_callback e now n) = uncertainty_fixed n
  /\ deadline_timeout (encoder_callback e now n) = deadline_timeout n.
Proof. repeat split. Qed.
End Encoder_callback_effect.

Lemma watchdog_cases (t1 t2 : Time) (n : Node) :
  watchdog t1 t2 n = if deadline_passed t1 n then republished t1 t2 n else n.
Proof. reflexivity. Qed.

Lemma watchdog_fired (t1 t2 : Time) (n : Node) :
  deadline_passed t1 n = true -> watchdog t1 t2 n = republished t1 t2 n.
Proof. intros H. rewrite watchdog_cases, H. reflexivity. Qed.

Lemma watchdog_idle (t1 t2 : Time) (n : Node) :
  deadline_passed t1 n = false -> watchdog t1 t2 n = n.
Proof. intros H. rewrite watchdog_cases, H. reflexivity. Qed.

Lemma spinOnce_nil (n : Node) : spinOnce [] n = n.
Proof. reflexivity. Qed.

Lemma spinOnce_cons (e : Encoder) (t : Time) (msgs : list (Encoder * Time)) (n : Node) :
  spinOnce ((e, t) :: msgs) n = spinOnce msgs (encoder_callback e t n).
Proof. reflexivity. Qed.

Lemma main_loop_cons (it : Iteration) (its : list Iteration) (n : Node) :
  main_loop (it :: its) n = main_loop its (loop_body it n).
Proof. reflexivity. Qed.

(** A property of the node that every callback and every deadline check
    keeps is kept by the whole loop. *)
Section Loop_invariant.
Variable Inv : Node -> Prop.
Hypothesis Inv_callback : forall e t n, Inv n -> Inv (encoder_callback e t n).
Hypothesis Inv_republished : forall t1 t2 n, Inv n -> Inv (republished t1 t2 n).

Lemma spinOnce_invariant (msgs : list (Encoder * Time)) (n : Node) :
  Inv n -> Inv (spinOnce msgs n).
Proof using Inv_callback.
  revert n. induction msgs as [|[e t] msgs IH]; intros n Hn; [exact Hn|].
  rewrite spinOnce_cons. apply IH, Inv_callback, Hn.
Qed.

Lemma watchdog_invariant (t1 t2 : Time) (n : Node) :
  Inv n -> Inv (watchdog t1 t2 n).
Proof using Inv_republished.
  intros Hn. rewrite watchdog_cases.
  destruct (deadline_passed t1 n); [apply Inv_republished|]; exact Hn.
Qed.

Lemma main_loop_invariant (its : list Iteration) (n : Node) :
  Inv n -> Inv (main_loop its n).
Proof using Inv_callback Inv_republished.
  revert n. induction its as [|it its IH]; intros n Hn; [exact Hn|].
  rewrite main_loop_cons. apply IH.
  unfold loop_body. apply watchdog_invariant, spinOnce_invariant, Hn.
Qed.
End Loop_invariant.

(** ** Velocity of an encoder event *)

(** C1: every call of [encoder_callback] publishes one estimate whose
    linear x velocity is (encoder_ticks / ticks_per_meter) /
    (duration / 1e6), computed in doubles; with ticks_per_meter = 310 the
    event (310 ticks, 1_000_000 us) gives 1.0 and the event (-155 ticks,
    500_000 us) gives -1.0. *)
Theorem C1_event_velocity :
  (forall (e : Encoder) (now : Time) (n : Node),
      exists m,
        pose_publisher (encoder_callback e now n) = pose_publisher n ++ [m]
        /\ linear_velocity_x m
           = (double_of_Z (encoder_ticks e) / ticks_per_meter n
              / (double_of_Z (duration e) / 1e6))%float)
  /\ (forall (now : Time) (n : Node),
         linear_velocity_x
           (twist (encoder_callback (mkEncoder 310 1000000) now
                     (set_ticks_per_meter 310 n))) = 1%float
         /\ linear_velocity_x
              (twist (encoder_callback (mkEncoder (-155) 500000) now
                        (set_ticks_per_meter 310 n))) = (-1)%float)
  /\ (forall now : Time,
         map linear_velocity_x
             (pose_publisher
                (encoder_callback (mkEncoder 310 1000000) now
                   (main_setup default_params))) = [1%float]
         /\ map linear_velocity_x
              (pose_publisher
                 (encoder_callback (mkEncoder (-155) 500000) now
                    (main_setup default_params))) = [(-1)%float]).
Proof.
  split; [|split].
  - intros e now n. eexists. split; [apply encoder_callback_pose_publisher|].
    reflexivity.
  - intros now n. split; vm_compute; reflexivity.
  - intros now. split; vm_compute; reflexivity.
Qed.

(** ** Events of duration zero *)

(** C3, as stated, fails: with the default parameters the event
    (1 tick, 0 us) publishes an estimate whose velocity is +infinity, and the
    event (0 ticks, 0 us) one whose velocity is NaN. *)
Lemma C3_zero_duration_counterexample :
  let n := main_setup default_params in
  duration (mkEncoder 1 0) = 0
  /\ map linear_velocity_x
       (pose_publisher (encoder_callback (mkEncoder 1 0) (mkTime 5 0) n))
     = [infinity]
  /\ map linear_velocity_x
       (pose_publisher (encoder_callback (mkEncoder 0 0) (mkTime 5 0) n))
     = [nan]
  /\ is_finite infinity = false
  /\ is_finite nan = false.
Proof. vm_compute. repeat split. Qed.

(** C3, amended: an event of duration zero is not guarded.  The callback
    still publishes exactly one estimate, whose velocity is the quotient
    (encoder_ticks / ticks_per_meter) / 0.0, and that quotient is never a
    finite number: it is an infinity or NaN. *)
Theorem C3_zero_duration_unguarded (e : Encoder) (now : Time) (n : Node) :
  duration e = 0 ->
  exists m,
    pose_publisher (encoder_callback e now n) = pose_publisher n ++ [m]
    /\ linear_velocity_x m
       = (double_of_Z (encoder_ticks e) / ticks_per_meter n / 0)%float
    /\ is_finite (linear_velocity_x m) = false.
Proof.
  intros Hd. eexists. split; [apply encoder_callback_pose_publisher|].
  rewrite encoder_callback_twist. unfold event_velocity. rewrite Hd.
  change (linear_velocity_x (set_linear_x ?v _)) with v.
  change (double_of_Z 0 / 1e6)%float with 0%float.
  split; [reflexivity|]. apply double_div_zero_not_finite.
Qed.

Lemma C3_zero_duration_unguarded_witness :
  exists m,
    pose_publisher
      (encoder_callback (mkEncoder 1 0) (mkTime 5 0) (main_setup default_params))
    = pose_publisher (main_setup default_params) ++ [m]
    /\ linear_velocity_x m
       = (double_of_Z 1 / ticks_per_meter (main_setup default_params) / 0)%float
    /\ is_finite (linear_velocity_x m) = false.
Proof.
  apply (C3_zero_duration_unguarded (mkEncoder 1 0) (mkTime 5 0)
           (main_setup default_params)).
  reflexivity.
Defined.

(** ** Start-up *)

(** C7, as stated, fails: started with ticks_per_meter = -1 and
    deadline_timeout = 0 the node does not end but enters its loop, where an
    encoder event is answered as usual. *)
Lemma C7_no_fail_fast_counterexample :
  let params := mkParams (Some (-1)%float) None None (Some 0%float) in
  non_positive (ticks_per_meter (main_setup params)) = true
  /\ non_positive (deadline_timeout (main_setup params)) = true
  /\ startup params <> Fatal
  /\ map linear_velocity_x
       (pose_publisher
          (main params [mkIteration [(mkEncoder 310 1000000, mkTime 5 0)]
                                    (mkTime 5 0) (mkTime 5 0)]))
     = [(-310)%float].
Proof. vm_compute. repeat split. discriminate. Qed.

(** C7, amended: start-up checks no parameter.  Whatever the parameter
    server holds, zero and negative values included, the node reaches its
    loop with the calibration constants exactly as read (or their defaults
    310, 1e-3 and 0.1 when unset); no parameter value is fatal. *)
Theorem C7_startup_unchecked (params : Params) :
  startup params = Running (main_setup params)
  /\ startup params <> Fatal
  /\ ticks_per_meter (main_setup params)
     = param (param_ticks_per_meter params) 310%float
  /\ uncertainty_fixed (main_setup params)
     = param (param_uncertainty_fixed params) default_uncertainty_fixed
  /\ deadline_timeout (main_setup params)
     = param (param_deadline_timeout params) default_deadline_timeout
  /\ frame_id (main_setup params)
     = param (param_frame_id params) "base_link"%string.
Proof. repeat split. discriminate. Qed.

(** ** The deadline check *)

Lemma loop_body_quiet (it : Iteration) (n : Node) :
  quiet it -> loop_body it n = watchdog (now1 it) (now2 it) n.
Proof. unfold quiet, loop_body. intros ->. reflexivity. Qed.

(** Quiet passes whose clock reading is within the deadline of the last
    publication change nothing. *)
Lemma main_loop_within_deadline (its : list Iteration) (n : Node) :
  Forall (fun it => quiet it /\ deadline_passed (now1 it) n = false) its ->
  main_loop its n = n.
Proof.
  induction 1 as [|it its [Hq Hd] _ IH]; [reflexivity|].
  rewrite main_loop_cons, (loop_body_quiet _ _ Hq), (watchdog_idle _ _ _ Hd).
  exact IH.
Qed.

(** C4: when the deadline check finds that more than deadline_timeout has
    passed since the last publication, that pass publishes exactly one
    estimate, of velocity zero, and the later quiet passes whose clock is
    still within deadline_timeout of that publication publish nothing; the
    absolute tick count and its topic are left as they were. *)
Theorem C4_watchdog_once (n : Node) (it : Iteration) (its : list Iteration) :
  quiet it ->
  double_gt (toSec (now1 it) - last_publish_time n)%float (deadline_timeout n) = true ->
  Forall (fun it' =>
            quiet it'
            /\ double_gt (toSec (now1 it') - toSec (now1 it))%float
                         (deadline_timeout n) = false) its ->
  let n' := main_loop (it :: its) n in
  (exists m,
      pose_publisher n' = pose_publisher n ++ [m]
      /\ linear_velocity_x m = 0%float)
  /\ encoder_abs n' = encoder_abs n
  /\ encoder_publisher n' = encoder_publisher n
  /\ last_publish_time n' = toSec (now1 it).
Proof.
  intros Hq Hpassed Hlater n'. subst n'.
  rewrite main_loop_cons, (loop_body_quiet _ _ Hq), (watchdog_fired _ _ _ Hpassed).
  rewrite main_loop_within_deadline; [|exact Hlater].
  split; [|repeat split].
  eexists. split; reflexivity.
Qed.

Lemma C4_watchdog_once_witness :
  let n := encoder_callback (mkEncoder 310 1000000) (mkTime 5 0)
             (main_setup default_params) in
  let it := mkIteration [] (mkTime 5 200000000) (mkTime 5 200000100) in
  let its := [mkIteration [] (mkTime 5 200001000) (mkTime 5 200001100);
              mkIteration [] (mkTime 5 290000000) (mkTime 5 290000100)] in
  let n' := main_loop (it :: its) n in
  (exists m,
      pose_publisher n' = pose_publisher n ++ [m]
      /\ linear_velocity_x m = 0%float)
  /\ encoder_abs n' = encoder_abs n
  /\ encoder_publisher n' = encoder_publisher n
  /\ last_publish_time n' = toSec (now1 it).
Proof.
  intros n it its.
  apply (C4_watchdog_once n it its).
  - reflexivity.
  - vm_compute. reflexivity.
  - repeat constructor; vm_compute; reflexivity.
Defined.

(** C9: [last_publish_time] starts at 0, so when the first deadline check
    after start-up, made before any encoder event, reads a clock above
    deadline_timeout, it publishes a zero-velocity estimate (the first
    message on the topic, with sequence number 1) and nothing on the
    tick-count topic. *)
Theorem C9_first_check_publishes (params : Params) (t1 t2 : Time) :
  double_gt (toSec t1) (deadline_timeout (main_setup params)) = true ->
  last_publish_time (main_setup params) = 0%float
  /\ exists m,
       pose_publisher (main params [mkIteration [] t1 t2]) = [m]
       /\ linear_velocity_x m = 0%float
       /\ seq (header m) = 1
       /\ stamp (header m) = t2
       /\ encoder_publisher (main params [mkIteration [] t1 t2]) = [].
Proof.
  intros Hclock. split; [reflexivity|].
  unfold main. rewrite main_loop_cons. cbn [main_loop fold_left].
  rewrite loop_body_quiet by reflexivity. cbn [now1 now2].
  rewrite watchdog_fired.
  - eexists. split; [reflexivity|]. repeat split.
  - unfold deadline_passed.
    change (last_publish_time (main_setup params)) with 0%float.
    rewrite double_sub_zero. exact Hclock.
Qed.

Lemma C9_first_check_publishes_witness :
  last_publish_time (main_setup default_params) = 0%float
  /\ exists m,
       pose_publisher
         (main default_params
            [mkIteration [] (mkTime 1730000000 0) (mkTime 1730000000 100)])
       = [m]
       /\ linear_velocity_x m = 0%float
       /\ seq (header m) = 1
       /\ stamp (header m) = mkTime 1730000000 100
       /\ encoder_publisher
            (main default_params
               [mkIteration [] (mkTime 1730000000 0) (mkTime 1730000000 100)])
          = [].
Proof.
  apply (C9_first_check_publishes default_params
           (mkTime 1730000000 0) (mkTime 1730000000 100)).
  vm_compute. reflexivity.
Defined.

(** ** Fields of the message that only start-up writes *)

(** A property of the message template that the three assignments of the
    loop keep holds of the template and of everything published. *)
Section Template_invariant.
Variable P : TwistWithCovarianceStamped -> Prop.
Hypothesis P_stamp : forall t m, P m -> P (set_stamp t m).
Hypothesis P_seq : forall s m, P m -> P (set_seq s m).
Hypothesis P_linear_x : forall v m, P m -> P (set_linear_x v m).

Lemma template_inv_main_loop (its : list Iteration) (n : Node) :
  P (twist n) /\ Forall P (pose_publisher n) ->
  P (twist (main_loop its n)) /\ Forall P (pose_publisher (main_loop its n)).
Proof using P_stamp P_seq P_linear_x.
  apply (main_loop_invariant (fun n => P (twist n) /\ Forall P (pose_publisher n))).
  - intros e t n0 [Ht Hp].
    assert (P (twist (encoder_callback e t n0))) as Hnew.
    { rewrite encoder_callback_twist. auto. }
    split; [exact Hnew|].
    rewrite encoder_callback_pose_publisher.
    apply Forall_app. split; [exact Hp|]. constructor; [exact Hnew|constructor].
  - intros t1 t2 n0 [Ht Hp].
    assert (P (twist (republished t1 t2 n0))) as Hnew.
    { cbn [republished twist]. auto. }
    split; [exact Hnew|].
    cbn [republished pose_publisher].
    apply Forall_app. split; [exact Hp|]. constructor; [|constructor].
    cbn [republished twist] in Hnew. exact Hnew.
Qed.

Lemma template_inv_main (params : Params) (its : list Iteration) :
  P (twist (main_setup params)) ->
  P (twist (main params its)) /\ Forall P (pose_publisher (main params its)).
Proof using P_stamp P_seq P_linear_x.
  intros H0. apply template_inv_main_loop. split; [exact H0|constructor].
Qed.
End Template_invariant.

Lemma main_setup_covariance (params : Params) :
  covariance (tws_twist (twist (main_setup params)))
  = [ uncertainty_fixed (main_setup params); 0; 0; 0; 0; 0;
      0; 999; 0; 0; 0; 0;
      0; 0; 999; 0; 0; 0;
      0; 0; 0; 999; 0; 0;
      0; 0; 0; 0; 999; 0;
      0; 0; 0; 0; 0; 999 ]%float.
Proof. reflexivity. Qed.

Lemma main_setup_covariance_layout (params : Params) :
  covariance_layout (uncertainty_fixed (main_setup params))
                    (covariance (tws_twist (twist (main_setup params)))).
Proof.
  rewrite main_setup_covariance. split; [reflexivity|].
  intros r c Hr Hc. unfold entry.
  do 6 (destruct r as [|r]; [do 6 (destruct c as [|c]; [reflexivity|]); lia|]).
  lia.
Qed.

(** C5: every estimate published in a run, by the callback or by the
    deadline check, carries the covariance that start-up built: zero off the
    diagonal, 999 on the diagonal for y, z, roll, pitch and yaw, and the
    configured uncertainty_fixed for x; the loop never changes the
    covariance of the message template. *)
Theorem C5_covariance_fixed (params : Params) (its : list Iteration) :
  let unc := param (param_uncertainty_fixed params) default_uncertainty_fixed in
  Forall (fun m => covariance_layout unc (covariance (tws_twist m)))
         (pose_publisher (main params its))
  /\ Forall (fun m => covariance (tws_twist m)
                      = covariance (tws_twist (twist (main_setup params))))
            (pose_publisher (main params its))
  /\ covariance (tws_twist (twist (main params its)))
     = covariance (tws_twist (twist (main_setup params))).
Proof.
  intros unc.
  pose proof (template_inv_main
                (fun m => covariance (tws_twist m)
                          = covariance (tws_twist (twist (main_setup params))))
                ltac:(auto) ltac:(auto) ltac:(auto) params its eq_refl)
    as [Htpl Hpub].
  split; [|split; assumption].
  eapply Forall_impl; [exact Hpub|].
  intros m Hm. cbn beta in Hm. rewrite Hm.
  apply main_setup_covariance_layout.
Qed.

(** C8: in every estimate published in a run the linear y and z velocities
    and the three angular velocities are zero; linear x is the only twist
    component that is ever assigned. *)
Theorem C8_only_linear_x (params : Params) (its : list Iteration) :
  Forall unmeasured_zero (pose_publisher (main params its)).
Proof.
  apply (template_inv_main unmeasured_zero); try (intros ? m Hm; exact Hm).
  repeat split.
Qed.

(** ** The absolute tick count *)

Lemma wrap_int32_idemp_l (a b : Z) :
  wrap_int32 (wrap_int32 a + b) = wrap_int32 (a + b).
Proof.
  unfold wrap_int32. f_equal.
  replace ((a + 2 ^ 31) mod uint32_modulus - 2 ^ 31 + b + 2 ^ 31)
    with ((a + 2 ^ 31) mod uint32_modulus + b) by lia.
  rewrite Z.add_mod_idemp_l by (unfold uint32_modulus; lia).
  f_equal. lia.
Qed.

Lemma wrap_int32_range (a : Z) : in_int32 (wrap_int32 a).
Proof.
  unfold in_int32, wrap_int32, int32_min, int32_max.
  pose proof (Z.mod_pos_bound (a + 2 ^ 31) uint32_modulus) as H.
  unfold uint32_modulus in *. lia.
Qed.

Lemma wrap_int32_exact (a : Z) : in_int32 a -> wrap_int32 a = a.
Proof.
  unfold in_int32, wrap_int32, int32_min, int32_max, uint32_modulus.
  intros H. rewrite Z.mod_small; lia.
Qed.

Lemma wrap_int32_congruent (a : Z) :
  (wrap_int32 a - a) mod uint32_modulus = 0.
Proof.
  unfold wrap_int32.
  replace ((a + 2 ^ 31) mod uint32_modulus - 2 ^ 31 - a)
    with ((a + 2 ^ 31) mod uint32_modulus - (a + 2 ^ 31)) by lia.
  rewrite Zminus_mod_idemp_l, Z.sub_diag. reflexivity.
Qed.

Lemma sum_Z_app (l1 l2 : list Z) : sum_Z (l1 ++ l2) = sum_Z l1 + sum_Z l2.
Proof.
  induction l1 as [|a l1 IH]; unfold sum_Z in *; cbn [app fold_right]; lia.
Qed.

Lemma sum_Z_Permutation (l1 l2 : list Z) : Permutation l1 l2 -> sum_Z l1 = sum_Z l2.
Proof.
  induction 1 as [|a l1 l2 _ IH|a b l|l1 l2 l3 _ IH1 _ IH2];
    unfold sum_Z in *; cbn [fold_right]; lia.
Qed.

Lemma prefix_sums_app (acc : Z) (l1 l2 : list Z) :
  prefix_sums acc (l1 ++ l2)
  = prefix_sums acc l1 ++ prefix_sums (acc + sum_Z l1) l2.
Proof.
  revert acc. induction l1 as [|a l1 IH]; intros acc; cbn.
  - rewrite Z.add_0_r. reflexivity.
  - rewrite IH. fold (sum_Z l1). rewrite Z.add_assoc. reflexivity.
Qed.

Lemma prefix_sums_wrap_shift (acc k : Z) (l : list Z) :
  map wrap_int32 (prefix_sums (wrap_int32 acc + k) l)
  = map wrap_int32 (prefix_sums (acc + k) l).
Proof.
  revert k. induction l as [|d l IH]; intros k; cbn; [reflexivity|].
  f_equal.
  - rewrite <- !Z.add_assoc. apply wrap_int32_idemp_l.
  - rewrite <- !Z.add_assoc. apply IH.
Qed.

Lemma prefix_sums_wrap (acc : Z) (l : list Z) :
  map wrap_int32 (prefix_sums (wrap_int32 acc) l)
  = map wrap_int32 (prefix_sums acc l).
Proof.
  pose proof (prefix_sums_wrap_shift acc 0 l) as H.
  rewrite !Z.add_0_r in H. exact H.
Qed.

(** The accumulator and its topic after the callbacks of one [spinOnce]. *)
Lemma spinOnce_ticks (msgs : list (Encoder * Time)) (n : Node) :
  in_int32 (encoder_abs n) ->
  encoder_abs (spinOnce msgs n)
  = wrap_int32 (encoder_abs n + sum_Z (map encoder_ticks (map fst msgs)))
  /\ encoder_publisher (spinOnce msgs n)
     = encoder_publisher n
       ++ map wrap_int32
            (prefix_sums (encoder_abs n) (map encoder_ticks (map fst msgs))).
Proof.
  revert n. induction msgs as [|[e t] msgs IH]; intros n Hn.
  - cbn. rewrite Z.add_0_r, app_nil_r, wrap_int32_exact by exact Hn. split; reflexivity.
  - rewrite spinOnce_cons.
    destruct (IH (encoder_callback e t n)) as [Habs Hpub].
    { rewrite encoder_callback_encoder_abs. apply wrap_int32_range. }
    rewrite Habs, Hpub.
    rewrite encoder_callback_encoder_abs, encoder_callback_encoder_publisher.
    cbn [map fst sum_Z fold_right prefix_sums]. fold (sum_Z (map encoder_ticks (map fst msgs))).
    rewrite wrap_int32_idemp_l, prefix_sums_wrap, <- app_assoc, Z.add_assoc.
    split; reflexivity.
Qed.

Lemma watchdog_ticks (t1 t2 : Time) (n : Node) :
  encoder_abs (watchdog t1 t2 n) = encoder_abs n
  /\ encoder_publisher (watchdog t1 t2 n) = encoder_publisher n.
Proof.
  rewrite watchdog_cases. destruct (deadline_passed t1 n); split; reflexivity.
Qed.

Lemma tick_deltas_cons (it : Iteration) (its : list Iteration) :
  tick_deltas (it :: its)
  = map encoder_ticks (map fst (pending it)) ++ tick_deltas its.
Proof. unfold tick_deltas, events. cbn. apply map_app. Qed.

(** The accumulator and its topic after a number of loop passes. *)
Lemma main_loop_ticks (its : list Iteration) (n : Node) :
  in_int32 (encoder_abs n) ->
  encoder_abs (main_loop its n)
  = wrap_int32 (encoder_abs n + sum_Z (tick_deltas its))
  /\ encoder_publisher (main_loop its n)
     = encoder_publisher n
       ++ map wrap_int32 (prefix_sums (encoder_abs n) (tick_deltas its)).
Proof.
  revert n. induction its as [|it its IH]; intros n Hn.
  - cbn. rewrite Z.add_0_r, app_nil_r, wrap_int32_exact by exact Hn. split; reflexivity.
  - rewrite main_loop_cons, tick_deltas_cons.
    destruct (spinOnce_ticks (pending it) n Hn) as [Habs Hpub].
    destruct (watchdog_ticks (now1 it) (now2 it) (spinOnce (pending it) n))
      as [Wabs Wpub].
    destruct (IH (loop_body it n)) as [Labs Lpub].
    { unfold loop_body. rewrite Wabs, Habs. apply wrap_int32_range. }
    rewrite Labs, Lpub. unfold loop_body. rewrite Wabs, Wpub, Habs, Hpub.
    rewrite sum_Z_app, prefix_sums_app, map_app, wrap_int32_idemp_l,
      prefix_sums_wrap, <- app_assoc, Z.add_assoc.
    split; reflexivity.
Qed.

Lemma main_ticks (params : Params) (its : list Iteration) :
  encoder_abs (main params its) = wrap_int32 (sum_Z (tick_deltas its))
  /\ encoder_publisher (main params its)
     = map wrap_int32 (prefix_sums 0 (tick_deltas its)).
Proof.
  apply (main_loop_ticks its (main_setup params)).
  cbv. split; discriminate.
Qed.

Lemma map_wrap_int32_exact (l : list Z) :
  Forall in_int32 l -> map wrap_int32 l = l.
Proof.
  induction 1 as [|a l Ha _ IH]; cbn; [reflexivity|].
  rewrite IH, wrap_int32_exact by exact Ha. reflexivity.
Qed.

Lemma last_prefix_sums (acc d : Z) (l : list Z) :
  last (prefix_sums acc (d :: l)) = Some (acc + sum_Z (d :: l)).
Proof.
  revert acc d. induction l as [|d' l IH]; intros acc d.
  - cbn. rewrite Z.add_0_r. reflexivity.
  - change (prefix_sums acc (d :: d' :: l))
      with ((acc + d) :: prefix_sums (acc + d) (d' :: l)).
    change (last ((acc + d) :: prefix_sums (acc + d) (d' :: l)))
      with (last (prefix_sums (acc + d) (d' :: l))).
    rewrite IH. f_equal. unfold sum_Z. cbn [fold_right]. lia.
Qed.

(** C2, as stated, fails: after the two events of 2147483647 ticks and of
    1 tick the accumulator and the value broadcast last are -2147483648,
    while the sum of the tick deltas is 2147483648. *)
Lemma C2_exact_sum_counterexample :
  let t := mkTime 5 0 in
  let its := [mkIteration [(mkEncoder 2147483647 1000, t);
                           (mkEncoder 1 1000, t)] t t] in
  Forall Encoder_wf (events its)
  /\ sum_Z (tick_deltas its) = 2147483648
  /\ encoder_abs (main default_params its) = -2147483648
  /\ encoder_publisher (main default_params its) = [2147483647; -2147483648]
  /\ encoder_abs (main default_params its) <> sum_Z (tick_deltas its).
Proof.
  intros t its. split; [|vm_compute; repeat split; discriminate].
  repeat constructor; vm_compute; discriminate.
Qed.

(** C2, amended: the accumulator starts at 0 and after any run holds the
    sum of all tick deltas received so far, reduced into the int32 range
    modulo 2^32; each callback broadcasts the running sum reduced the same
    way.  Whenever the sum lies in the int32 range the accumulator equals it
    exactly, and likewise the broadcasts when every running sum does.  The
    final value does not depend on the order of the events. *)
Theorem C2_tick_count_sum (params : Params) (its its' : list Iteration) :
  encoder_abs (main_setup params) = 0
  /\ encoder_abs (main params its) = wrap_int32 (sum_Z (tick_deltas its))
  /\ encoder_publisher (main params its)
     = map wrap_int32 (prefix_sums 0 (tick_deltas its))
  /\ (in_int32 (sum_Z (tick_deltas its)) ->
      encoder_abs (main params its) = sum_Z (tick_deltas its))
  /\ (Forall in_int32 (prefix_sums 0 (tick_deltas its)) ->
      encoder_publisher (main params its) = prefix_sums 0 (tick_deltas its))
  /\ (Permutation (tick_deltas its) (tick_deltas its') ->
      encoder_abs (main params its') = encoder_abs (main params its)).
Proof.
  destruct (main_ticks params its) as [Habs Hpub].
  destruct (main_ticks params its') as [Habs' _].
  split; [reflexivity|]. split; [exact Habs|]. split; [exact Hpub|].
  split; [|split].
  - intros Hr. rewrite Habs. apply wrap_int32_exact, Hr.
  - intros Hr. rewrite Hpub. apply map_wrap_int32_exact, Hr.
  - intros Hperm. rewrite Habs, Habs', (sum_Z_Permutation _ _ Hperm). reflexivity.
Qed.

(** C10: the accumulator is a 32-bit signed integer.  After any run it lies
    in the int32 range and is congruent modulo 2^32 to the sum of the tick
    deltas, the value broadcast last is the accumulator, and when the sum
    lies outside the int32 range neither equals the sum. *)
Theorem C10_tick_count_wraps (params : Params) (its : list Iteration) :
  let total := sum_Z (tick_deltas its) in
  let n := main params its in
  in_int32 (encoder_abs n)
  /\ (encoder_abs n - total) mod 2 ^ 32 = 0
  /\ (tick_deltas its <> [] -> last (encoder_publisher n) = Some (encoder_abs n))
  /\ (~ in_int32 total ->
      encoder_abs n <> total /\ last (encoder_publisher n) <> Some total).
Proof.
  intros total n. subst total n.
  destruct (main_ticks params its) as [Habs Hpub].
  assert (tick_deltas its <> [] ->
          last (encoder_publisher (main params its))
          = Some (encoder_abs (main params its))) as Hlast.
  { intros Hne. rewrite Hpub, Habs.
    destruct (tick_deltas its) as [|d l]; [congruence|].
    rewrite fmap_last, last_prefix_sums. reflexivity. }
  assert (in_int32 (encoder_abs (main params its))) as Hrange.
  { rewrite Habs. apply wrap_int32_range. }
  split; [exact Hrange|]. split; [|split; [exact Hlast|]].
  - rewrite Habs. apply wrap_int32_congruent.
  - intros Hout.
    assert (encoder_abs (main params its) <> sum_Z (tick_deltas its)) as Hne.
    { intros Heq. apply Hout. rewrite <- Heq. exact Hrange. }
    split; [exact Hne|].
    destruct (tick_deltas its) as [|d l] eqn:Hd.
    + exfalso. apply Hout. cbv. split; discriminate.
    + rewrite Hlast by discriminate. congruence.
Qed.

(** ** Sequence numbers *)

Lemma wrap_uint32_succ (k : Z) :
  wrap_uint32 (wrap_uint32 k + 1) = wrap_uint32 (k + 1).
Proof. unfold wrap_uint32. apply Z.add_mod_idemp_l. discriminate. Qed.

Lemma seq_inv_publish (n n' : Node) :
  seq (header (twist n')) = wrap_uint32 (seq (header (twist n)) + 1) ->
  pose_publisher n' = pose_publisher n ++ [twist n'] ->
  seq_inv n -> seq_inv n'.
Proof.
  intros Hseq Hpub [Hcnt Hlist].
  assert (published n' = S (published n)) as Hlen.
  { unfold published. rewrite Hpub, length_app. cbn. lia. }
  assert (seq (header (twist n')) = wrap_uint32 (Z.of_nat (published n'))) as Hcnt'.
  { rewrite Hseq, Hcnt, wrap_uint32_succ, Hlen. f_equal. lia. }
  split; [exact Hcnt'|].
  unfold pose_seqs in *. rewrite Hpub, map_app, Hlist. cbn [map].
  rewrite Hcnt', Hlen, seqZ_S, map_app. cbn [map].
  do 3 f_equal. lia.
Qed.

Lemma seq_inv_main (params : Params) (its : list Iteration) :
  seq_inv (main params its).
Proof.
  unfold main. apply main_loop_invariant.
  - intros e t n. apply seq_inv_publish; reflexivity.
  - intros t1 t2 n. apply seq_inv_publish; reflexivity.
  - split; reflexivity.
Qed.

Lemma strictly_increasing_seqZ (m k : Z) : strictly_increasing (seqZ m k).
Proof.
  intros i j a b Hij Ha Hb.
  apply lookup_seqZ in Ha as [-> _]. apply lookup_seqZ in Hb as [-> _]. lia.
Qed.

Lemma map_wrap_uint32_seqZ (k : Z) :
  k < uint32_modulus -> map wrap_uint32 (seqZ 1 k) = seqZ 1 k.
Proof.
  intros Hk. apply list_eq. intros i.
  change (map wrap_uint32 (seqZ 1 k)) with (wrap_uint32 <$> seqZ 1 k).
  rewrite list_lookup_fmap.
  destruct (seqZ 1 k !! i) as [a|] eqn:Ha; [|reflexivity].
  apply lookup_seqZ in Ha as [-> Hi]. cbn. f_equal.
  unfold wrap_uint32. apply Z.mod_small. lia.
Qed.

Lemma lookup_wrapped_seqZ (k i : Z) :
  0 <= i < k ->
  map wrap_uint32 (seqZ 1 k) !! Z.to_nat i = Some (wrap_uint32 (1 + i)).
Proof.
  intros Hi.
  change (map wrap_uint32 (seqZ 1 k)) with (wrap_uint32 <$> seqZ 1 k).
  rewrite list_lookup_fmap, lookup_seqZ_lt by (rewrite Z2Nat.id; lia).
  rewrite Z2Nat.id by lia. reflexivity.
Qed.

Lemma busy_pass_publishes_once (k : nat) (n : Node) :
  deadline_timeout n = default_deadline_timeout ->
  published (main_loop (replicate k busy_pass) n) = (published n + k)%nat.
Proof.
  revert n. induction k as [|k IH]; intros n Hd.
  - cbn. lia.
  - rewrite replicate_S, main_loop_cons.
    assert (loop_body busy_pass n
            = encoder_callback (mkEncoder 1 1000) (mkTime 0 0) n) as ->.
    { unfold loop_body, busy_pass. cbn [pending now1 now2 spinOnce fold_left].
      apply watchdog_idle. unfold deadline_passed.
      rewrite encoder_callback_last_publish_time.
      destruct (encoder_callback_config (mkEncoder 1 1000) (mkTime 0 0) n)
        as (_ & _ & _ & ->).
      rewrite Hd. reflexivity. }
    rewrite IH by exact Hd.
    unfold published. rewrite encoder_callback_pose_publisher, length_app.
    cbn [length]. lia.
Qed.

(** C6, as stated, fails: in the run of 2^32 busy passes from start-up with
    the default parameters, each publishing one estimate, the publications
    number 4294967295 and 4294967296 carry the sequence numbers 4294967295
    and 0. *)
Lemma C6_sequence_wraps_counterexample :
  let n := main default_params (replicate (Z.to_nat (2 ^ 32)) busy_pass) in
  pose_seqs n !! Z.to_nat (2 ^ 32 - 2) = Some 4294967295
  /\ pose_seqs n !! Z.to_nat (2 ^ 32 - 1) = Some 0
  /\ ~ strictly_increasing (pose_seqs n).
Proof.
  intros n.
  assert (Z.of_nat (published n) = 2 ^ 32) as Hlen.
  { subst n. unfold main. rewrite busy_pass_publishes_once by reflexivity.
    change (published (main_setup default_params)) with 0%nat.
    rewrite Nat.add_0_l. apply Z2Nat.id. discriminate. }
  destruct (seq_inv_main default_params (replicate (Z.to_nat (2 ^ 32)) busy_pass))
    as [_ Hlist].
  fold n in Hlist. rewrite Hlen in Hlist.
  assert (forall i : Z, 0 <= i < 2 ^ 32 ->
            pose_seqs n !! Z.to_nat i = Some (wrap_uint32 (1 + i))) as Hat.
  { intros i Hi. rewrite Hlist. apply lookup_wrapped_seqZ, Hi. }
  assert (pose_seqs n !! Z.to_nat (2 ^ 32 - 2) = Some 4294967295) as H1.
  { rewrite Hat by lia. reflexivity. }
  assert (pose_seqs n !! Z.to_nat (2 ^ 32 - 1) = Some 0) as H2.
  { rewrite Hat by lia. reflexivity. }
  split; [exact H1|]. split; [exact H2|].
  intros Hinc.
  assert (Z.to_nat (2 ^ 32 - 2) < Z.to_nat (2 ^ 32 - 1))%nat as Hlt by lia.
  pose proof (Hinc _ _ _ _ Hlt H1 H2). lia.
Qed.

(** C6, amended: every publication, by the callback or by the deadline
    check, increments the one counter by one modulo 2^32, so the k-th
    estimate published in a run carries the sequence number k mod 2^32;
    while fewer than 2^32 estimates have been published the sequence numbers
    are 1, 2, 3, ... and hence strictly increasing. *)
Theorem C6_sequence_numbers (params : Params) (its : list Iteration) :
  let n := main params its in
  pose_seqs n = map wrap_uint32 (seqZ 1 (Z.of_nat (published n)))
  /\ seq (header (twist n)) = wrap_uint32 (Z.of_nat (published n))
  /\ (Z.of_nat (published n) < uint32_modulus ->
      pose_seqs n = seqZ 1 (Z.of_nat (published n))
      /\ strictly_increasing (pose_seqs n)).
Proof.
  intros n. destruct (seq_inv_main params its) as [Hcnt Hlist]. fold n in Hcnt, Hlist.
  split; [exact Hlist|]. split; [exact Hcnt|].
  intros Hlt.
  assert (pose_seqs n = seqZ 1 (Z.of_nat (published n))) as Heq.
  { rewrite Hlist. apply map_wrap_uint32_seqZ, Hlt. }
  split; [exact Heq|]. rewrite Heq. apply strictly_increasing_seqZ.
Qed.

Lemma C6_sequence_numbers_witness :
  let n := main default_params
             [mkIteration [(mkEncoder 310 1000000, mkTime 5 0);
                           (mkEncoder 155 500000, mkTime 5 500000)]
                          (mkTime 5 600000) (mkTime 5 600100);
              mkIteration [] (mkTime 6 0) (mkTime 6 100)] in
  pose_seqs n = [1; 2; 3] /\ strictly_increasing (pose_seqs n).
Proof.
  intros n.
  destruct (C6_sequence_numbers default_params
              [mkIteration [(mkEncoder 310 1000000, mkTime 5 0);
                            (mkEncoder 155 500000, mkTime 5 500000)]
                           (mkTime 5 600000) (mkTime 5 600100);
               mkIteration [] (mkTime 6 0) (mkTime 6 100)])
    as (_ & _ & H).
  apply H. vm_compute. reflexivity.
Defined.


(** * Further properties of the code *)

(** ** More facts about doubles *)

Lemma not_finite_SF (a : float) :
  is_finite a = false <->
  Prim2SF a = S754_nan \/ exists s, Prim2SF a = S754_infinity s.
Proof.
  unfold is_finite. rewrite FloatAxioms.classify_spec.
  unfold SF64classify, SFclassify.
  destruct (Prim2SF a) as [[]|[]| |[] m e]; split;
    try (intros _; first [left; reflexivity | right; eexists; reflexivity | reflexivity]);
    try discriminate;
    try (intros [H|[s H]]; discriminate).
  - destruct (Z.eqb _ _); discriminate.
  - destruct (Z.eqb _ _); discriminate.
Qed.

Lemma double_div_not_finite_l (a b : float) :
  is_finite a = false -> is_finite (a / b)%float = false.
Proof.
  rewrite !not_finite_SF, FloatAxioms.div_spec. unfold SF64div, SFdiv.
  intros [->|[s ->]].
  - left. reflexivity.
  - destruct (Prim2SF b) as [sb|sb| |sb mb eb];
      first [left; reflexivity | right; eexists; reflexivity].
Qed.

Lemma double_opp_involutive (a : float) : (- - a)%float = a.
Proof.
  apply Prim2SF_inj. rewrite !FloatAxioms.opp_spec.
  destruct (Prim2SF a) as [s|s| |s m e]; cbn; rewrite ?negb_involutive; reflexivity.
Qed.

Lemma double_div_opp_l (a b : float) : (- a / b)%float = (- (a / b))%float.
Proof.
  apply Prim2SF_inj.
  rewrite FloatAxioms.opp_spec, !FloatAxioms.div_spec, FloatAxioms.opp_spec.
  unfold SF64div, SFdiv.
  destruct (Prim2SF a) as [sa|sa| |sa ma ea], (Prim2SF b) as [sb|sb| |sb mb eb];
    cbn [SFopp]; try reflexivity;
    try (destruct sa, sb; reflexivity).
  destruct (SFdiv_core_binary prec emax (Zpos ma) ea (Zpos mb) eb) as [[mz ez] lz].
  unfold binary_round_aux.
  destruct (shr_fexp prec emax mz ez lz) as [mrs' e'].
  destruct (shr_fexp prec emax _ e' loc_Exact) as [mrs'' e''].
  destruct (shr_m mrs'') as [|m|m]; cbn [SFopp]; [| |reflexivity].
  - destruct sa, sb; reflexivity.
  - destruct (Z.leb e'' _); cbn [SFopp]; destruct sa, sb; reflexivity.
Qed.

Lemma double_sub_diag (a : float) : is_finite a = true -> (a - a)%float = 0%float.
Proof.
  intros Hfin. apply Prim2SF_inj. rewrite FloatAxioms.sub_spec.
  change (Prim2SF 0) with (S754_zero false).
  assert (is_finite a <> false) as Hnf by (rewrite Hfin; discriminate).
  rewrite not_finite_SF in Hnf.
  unfold SF64sub, SFsub.
  destruct (Prim2SF a) as [s|s| |s m e].
  - destruct s; reflexivity.
  - exfalso. apply Hnf. right. eexists. reflexivity.
  - exfalso. apply Hnf. left. reflexivity.
  - rewrite Z.sub_diag. reflexivity.
Qed.

Lemma double_gt_nan_r (a : float) : double_gt a nan = false.
Proof.
  unfold double_gt. rewrite FloatAxioms.ltb_spec.
  change (Prim2SF nan) with S754_nan. reflexivity.
Qed.

Lemma double_gt_infinity_r (a : float) : double_gt a infinity = false.
Proof.
  unfold double_gt. rewrite FloatAxioms.ltb_spec.
  change (Prim2SF infinity) with (S754_infinity false).
  unfold SFltb, SFcompare. destruct (Prim2SF a) as [s|[]| |s m e]; reflexivity.
Qed.

(** ** What the loop leaves alone *)

(** X2: the four calibration globals are written at start-up only: after
    any number of loop passes from any state they hold the values they had. *)
Theorem main_loop_config (its : list Iteration) (n : Node) :
  frame_id (main_loop its n) = frame_id n
  /\ ticks_per_meter (main_loop its n) = ticks_per_meter n
  /\ uncertainty_fixed (main_loop its n) = uncertainty_fixed n
  /\ deadline_timeout (main_loop its n) = deadline_timeout n.
Proof.
  apply (main_loop_invariant
           (fun n' => frame_id n' = frame_id n
                      /\ ticks_per_meter n' = ticks_per_meter n
                      /\ uncertainty_fixed n' = uncertainty_fixed n
                      /\ deadline_timeout n' = deadline_timeout n)).
  - intros e t n0 H. exact H.
  - intros t1 t2 n0 H. exact H.
  - repeat split.
Qed.

Lemma spinOnce_config (msgs : list (Encoder * Time)) (n : Node) :
  ticks_per_meter (spinOnce msgs n) = ticks_per_meter n
  /\ deadline_timeout (spinOnce msgs n) = deadline_timeout n.
Proof.
  apply (spinOnce_invariant
           (fun n' => ticks_per_meter n' = ticks_per_meter n
                      /\ deadline_timeout n' = deadline_timeout n)).
  - intros e t n0 H. exact H.
  - split; reflexivity.
Qed.

(** X1: every estimate published in a run carries in its header the frame
    name read at start-up, "base_link" when the parameter is not set. *)
Theorem published_frame_id (params : Params) (its : list Iteration) :
  Forall (fun m => message_frame_id m
                   = param (param_frame_id params) "base_link"%string)
         (pose_publisher (main params its)).
Proof.
  apply (template_inv_main
           (fun m => message_frame_id m
                     = param (param_frame_id params) "base_link"%string));
    try (intros ? m Hm; exact Hm).
  reflexivity.
Qed.

(** X11: the message template is shared by the callback and the deadline
    check and is published as it stands, so after any run in which something
    was published the template equals the estimate published last. *)
Theorem template_is_last_published (params : Params) (its : list Iteration) :
  pose_publisher (main params its) <> [] ->
  last (pose_publisher (main params its)) = Some (twist (main params its)).
Proof.
  assert (pose_publisher (main params its) = []
          \/ last (pose_publisher (main params its))
             = Some (twist (main params its))) as [Hnil|Hlast].
  { unfold main.
    apply (main_loop_invariant
             (fun n => pose_publisher n = []
                       \/ last (pose_publisher n) = Some (twist n))).
    - intros e t n _. right.
      rewrite encoder_callback_pose_publisher. apply last_snoc.
    - intros t1 t2 n _. right. cbn [republished pose_publisher twist].
      apply last_snoc.
    - left. reflexivity. }
  - intros Hne. contradiction.
  - intros _. exact Hlast.
Qed.

Lemma template_is_last_published_witness :
  last (pose_publisher
          (main default_params
             [mkIteration [(mkEncoder 310 1000000, mkTime 5 0)]
                          (mkTime 5 1000) (mkTime 5 1100)]))
  = Some (twist
            (main default_params
               [mkIteration [(mkEncoder 310 1000000, mkTime 5 0)]
                            (mkTime 5 1000) (mkTime 5 1100)])).
Proof.
  apply (template_is_last_published default_params
           [mkIteration [(mkEncoder 310 1000000, mkTime 5 0)]
                        (mkTime 5 1000) (mkTime 5 1100)]).
  vm_compute. discriminate.
Defined.

(** ** How many messages a run sends *)

Lemma events_cons (it : Iteration) (its : list Iteration) :
  events (it :: its) = map fst (pending it) ++ events its.
Proof. reflexivity. Qed.

Lemma spinOnce_published (msgs : list (Encoder * Time)) (n : Node) :
  published (spinOnce msgs n) = (published n + length msgs)%nat
  /\ length (encoder_publisher (spinOnce msgs n))
     = (length (encoder_publisher n) + length msgs)%nat.
Proof.
  revert n. induction msgs as [|[e t] msgs IH]; intros n.
  - cbn. lia.
  - rewrite spinOnce_cons. destruct (IH (encoder_callback e t n)) as [-> ->].
    unfold published.
    rewrite encoder_callback_pose_publisher, encoder_callback_encoder_publisher,
      !length_app.
    cbn [length]. lia.
Qed.

Lemma watchdog_published (t1 t2 : Time) (n : Node) :
  (published n <= published (watchdog t1 t2 n) <= published n + 1)%nat
  /\ encoder_publisher (watchdog t1 t2 n) = encoder_publisher n.
Proof.
  rewrite watchdog_cases. destruct (deadline_passed t1 n).
  - unfold published. cbn [republished pose_publisher encoder_publisher].
    rewrite length_app. cbn [length]. split; [lia|reflexivity].
  - split; [lia|reflexivity].
Qed.

Lemma main_loop_published (its : list Iteration) (n : Node) :
  (published n + length (events its) <= published (main_loop its n)
   <= published n + length (events its) + length its)%nat
  /\ length (encoder_publisher (main_loop its n))
     = (length (encoder_publisher n) + length (events its))%nat.
Proof.
  revert n. induction its as [|it its IH]; intros n.
  - cbn. lia.
  - rewrite main_loop_cons, events_cons, length_app, length_map.
    destruct (IH (loop_body it n)) as [Hpose Henc].
    destruct (spinOnce_published (pending it) n) as [Spose Senc].
    destruct (watchdog_published (now1 it) (now2 it) (spinOnce (pending it) n))
      as [Wpose Wenc].
    unfold loop_body in *. rewrite Wenc, Senc in Henc. rewrite Spose in Wpose.
    cbn [length]. lia.
Qed.

(** X3: in a run from start-up the tick-count topic receives exactly one
    message per encoder event, and the estimate topic one per encoder event
    plus at most one per loop pass (the zero-velocity republications). *)
Theorem message_counts (params : Params) (its : list Iteration) :
  length (encoder_publisher (main params its)) = length (events its)
  /\ (length (events its) <= length (pose_publisher (main params its))
      <= length (events its) + length its)%nat.
Proof.
  destruct (main_loop_published its (main_setup params)) as [Hpose Henc].
  split; [exact Henc|]. exact Hpose.
Qed.

(** ** Which velocities are published *)

Lemma spinOnce_velocities (msgs : list (Encoder * Time)) (n : Node) :
  map linear_velocity_x (pose_publisher (spinOnce msgs n))
  = map linear_velocity_x (pose_publisher n)
    ++ map (event_velocity (ticks_per_meter n)) (map fst msgs).
Proof.
  revert n. induction msgs as [|[e t] msgs IH]; intros n.
  - cbn. rewrite app_nil_r. reflexivity.
  - rewrite spinOnce_cons, IH, encoder_callback_pose_publisher, map_app,
      <- app_assoc.
    reflexivity.
Qed.

Lemma watchdog_velocities (t1 t2 : Time) (n : Node) :
  map linear_velocity_x (pose_publisher (watchdog t1 t2 n))
  = map linear_velocity_x (pose_publisher n)
    ++ (if deadline_passed t1 n then [0%float] else []).
Proof.
  rewrite watchdog_cases. destruct (deadline_passed t1 n).
  - cbn [republished pose_publisher]. rewrite map_app. reflexivity.
  - rewrite app_nil_r. reflexivity.
Qed.

Lemma main_loop_velocities (its : list Iteration) (n : Node) (seen : list Encoder) :
  Forall (fun v => v = 0%float
                   \/ exists e, In e seen
                                /\ v = event_velocity (ticks_per_meter n) e)
         (map linear_velocity_x (pose_publisher n)) ->
  Forall (fun v => v = 0%float
                   \/ exists e, In e (seen ++ events its)
                                /\ v = event_velocity (ticks_per_meter n) e)
         (map linear_velocity_x (pose_publisher (main_loop its n))).
Proof.
  revert n seen. induction its as [|it its IH]; intros n seen Hn.
  - cbn. rewrite app_nil_r. exact Hn.
  - rewrite main_loop_cons, events_cons, app_assoc.
    destruct (spinOnce_config (pending it) n) as [Htpm _].
    assert (ticks_per_meter (loop_body it n) = ticks_per_meter n) as Hcfg.
    { unfold loop_body. rewrite watchdog_cases.
      destruct (deadline_passed _ _); exact Htpm. }
    rewrite <- Hcfg. apply IH. rewrite Hcfg.
    unfold loop_body. rewrite watchdog_velocities, spinOnce_velocities.
    rewrite !Forall_app. split; [split|].
    + eapply Forall_impl; [exact Hn|].
      intros v [Hv|(e & He & Hv)]; [left; exact Hv|].
      right. exists e. split; [apply in_or_app; left; exact He|exact Hv].
    + apply Forall_forall. intros v Hv.
      apply list_elem_of_In, in_map_iff in Hv as (e & <- & He).
      right. exists e. split; [apply in_or_app; right; exact He|reflexivity].
    + destruct (deadline_passed _ _); repeat constructor.
Qed.

(** X4: every velocity published in a run from start-up is either the zero
    of a republication or the quotient (encoder_ticks / ticks_per_meter) /
    (duration / 1e6) of one of the encoder events of the run, taken with the
    ticks_per_meter read at start-up. *)
Theorem published_velocities (params : Params) (its : list Iteration) :
  Forall (fun m =>
            linear_velocity_x m = 0%float
            \/ exists e,
                 In e (events its)
                 /\ linear_velocity_x m
                    = (double_of_Z (encoder_ticks e)
                       / param (param_ticks_per_meter params) 310
                       / (double_of_Z (duration e) / 1e6))%float)
         (pose_publisher (main params its)).
Proof.
  pose proof (main_loop_velocities its (main_setup params) []) as H.
  specialize (H ltac:(constructor)).
  change (map linear_velocity_x ?l) with (linear_velocity_x <$> l) in H.
  rewrite Forall_fmap in H. exact H.
Qed.

(** X5: reversing the sign of a non-zero tick count negates the published
    velocity exactly. *)
Theorem velocity_sign_symmetry (e : Encoder) (now : Time) (n : Node) :
  encoder_ticks e <> 0 ->
  linear_velocity_x
    (twist (encoder_callback (mkEncoder (- encoder_ticks e) (duration e)) now n))
  = (- linear_velocity_x (twist (encoder_callback e now n)))%float.
Proof.
  intros Hne. rewrite !encoder_callback_twist.
  change (linear_velocity_x (set_linear_x ?v _)) with v.
  unfold event_velocity. cbn [encoder_ticks duration].
  assert (double_of_Z (- encoder_ticks e)
          = (- double_of_Z (encoder_ticks e))%float) as ->.
  { destruct (encoder_ticks e) as [|p|p]; [contradiction|reflexivity|].
    cbn [Z.opp double_of_Z]. rewrite double_opp_involutive. reflexivity. }
  rewrite !double_div_opp_l. reflexivity.
Qed.

Lemma velocity_sign_symmetry_witness :
  linear_velocity_x
    (twist (encoder_callback (mkEncoder (- 155) 500000) (mkTime 5 0)
              (main_setup default_params)))
  = (- linear_velocity_x
         (twist (encoder_callback (mkEncoder 155 500000) (mkTime 5 0)
                   (main_setup default_params))))%float.
Proof.
  apply (velocity_sign_symmetry (mkEncoder 155 500000) (mkTime 5 0)
           (main_setup default_params)).
  discriminate.
Defined.

(** X6: with ticks_per_meter zero (of either sign) no encoder event yields a
    finite velocity: whatever its tick count and duration, the estimate the
    callback publishes carries an infinity or NaN. *)
Theorem zero_ticks_per_meter_never_finite (e : Encoder) (now : Time) (n : Node) :
  ticks_per_meter n = 0%float \/ ticks_per_meter n = (-0)%float ->
  exists m,
    pose_publisher (encoder_callback e now n) = pose_publisher n ++ [m]
    /\ is_finite (linear_velocity_x m) = false.
Proof.
  intros Htpm. eexists. split; [apply encoder_callback_pose_publisher|].
  rewrite encoder_callback_twist.
  change (linear_velocity_x (set_linear_x ?v _)) with v.
  unfold event_velocity. apply double_div_not_finite_l.
  destruct Htpm as [-> | ->].
  - apply double_div_zero_not_finite.
  - rewrite not_finite_SF, FloatAxioms.div_spec.
    change (Prim2SF (-0)) with (S754_zero true).
    unfold SF64div, SFdiv.
    destruct (Prim2SF (double_of_Z (encoder_ticks e))) as [s|s| |s m ex];
      first [left; reflexivity | right; eexists; reflexivity].
Qed.

Lemma zero_ticks_per_meter_never_finite_witness :
  exists m,
    pose_publisher
      (encoder_callback (mkEncoder 310 1000000) (mkTime 5 0)
         (main_setup (mkParams (Some 0%float) None None None)))
    = pose_publisher (main_setup (mkParams (Some 0%float) None None None)) ++ [m]
    /\ is_finite (linear_velocity_x m) = false.
Proof.
  apply (zero_ticks_per_meter_never_finite (mkEncoder 310 1000000) (mkTime 5 0)
           (main_setup (mkParams (Some 0%float) None None None))).
  left. reflexivity.
Defined.

(** ** The deadline check in particular situations *)

Lemma main_loop_watchdog_off (its : list Iteration) (n : Node) :
  (forall a, double_gt a (deadline_timeout n) = false) ->
  map linear_velocity_x (pose_publisher (main_loop its n))
  = map linear_velocity_x (pose_publisher n)
    ++ map (event_velocity (ticks_per_meter n)) (events its).
Proof.
  revert n. induction its as [|it its IH]; intros n Hoff.
  - cbn. rewrite app_nil_r. reflexivity.
  - rewrite main_loop_cons, events_cons.
    destruct (spinOnce_config (pending it) n) as [Htpm Hdl].
    assert (loop_body it n = spinOnce (pending it) n) as ->.
    { unfold loop_body. apply watchdog_idle. unfold deadline_passed.
      rewrite Hdl. apply Hoff. }
    rewrite IH by (rewrite Hdl; exact Hoff).
    rewrite spinOnce_velocities, Htpm, map_app, <- app_assoc. reflexivity.
Qed.

(** X7: when deadline_timeout is NaN or +infinity the comparison of the
    deadline check is never true, so a run publishes no zero-velocity
    republication at all: the velocities on the topic are exactly those of
    the encoder events, in the order the events were handled. *)
Theorem watchdog_disabled (params : Params) (its : list Iteration) :
  deadline_timeout (main_setup params) = nan
  \/ deadline_timeout (main_setup params) = infinity ->
  map linear_velocity_x (pose_publisher (main params its))
  = map (fun e => (double_of_Z (encoder_ticks e)
                   / param (param_ticks_per_meter params) 310
                   / (double_of_Z (duration e) / 1e6))%float)
        (events its).
Proof.
  intros Hd. unfold main. rewrite main_loop_watchdog_off; [reflexivity|].
  intros a. destruct Hd as [-> | ->].
  - apply double_gt_nan_r.
  - apply double_gt_infinity_r.
Qed.

Lemma watchdog_disabled_witness :
  map linear_velocity_x
      (pose_publisher
         (main (mkParams None None None (Some nan))
               [mkIteration [(mkEncoder 310 1000000, mkTime 5 0)]
                            (mkTime 9 0) (mkTime 9 100);
                mkIteration [] (mkTime 1000 0) (mkTime 1000 100)]))
  = map (fun e => (double_of_Z (encoder_ticks e)
                   / param (param_ticks_per_meter
                              (mkParams None None None (Some nan))) 310
                   / (double_of_Z (duration e) / 1e6))%float)
        (events [mkIteration [(mkEncoder 310 1000000, mkTime 5 0)]
                             (mkTime 9 0) (mkTime 9 100);
                 mkIteration [] (mkTime 1000 0) (mkTime 1000 100)]).
Proof.
  apply (watchdog_disabled (mkParams None None None (Some nan))
           [mkIteration [(mkEncoder 310 1000000, mkTime 5 0)]
                        (mkTime 9 0) (mkTime 9 100);
            mkIteration [] (mkTime 1000 0) (mkTime 1000 100)]).
  left. reflexivity.
Defined.

(** X8: while the encoder stays silent the zero velocity is republished
    once per elapsed deadline: of a series of quiet passes, each finding the
    clock more than deadline_timeout past the previous republication, every
    one publishes one zero-velocity estimate, and the tick count and its
    topic stay as they were. *)
Theorem silence_heartbeat (its : list Iteration) (n : Node) :
  all_crossings (deadline_timeout n) (last_publish_time n) its ->
  map linear_velocity_x (pose_publisher (main_loop its n))
  = map linear_velocity_x (pose_publisher n) ++ replicate (length its) 0%float
  /\ encoder_abs (main_loop its n) = encoder_abs n
  /\ encoder_publisher (main_loop its n) = encoder_publisher n.
Proof.
  revert n. induction its as [|it its IH]; intros n Hall.
  - cbn. rewrite app_nil_r. repeat split.
  - destruct Hall as (Hq & Hpassed & Hrest).
    rewrite main_loop_cons, (loop_body_quiet _ _ Hq),
      (watchdog_fired _ _ _ Hpassed).
    destruct (IH (republished (now1 it) (now2 it) n) Hrest) as (Hv & Ha & Hp).
    rewrite Hv, Ha, Hp. cbn [republished pose_publisher encoder_abs encoder_publisher].
    rewrite map_app, <- app_assoc. repeat split.
Qed.

Lemma silence_heartbeat_witness :
  let n := encoder_callback (mkEncoder 310 1000000) (mkTime 5 0)
             (main_setup default_params) in
  let its := [mkIteration [] (mkTime 5 200000000) (mkTime 5 200000100);
              mkIteration [] (mkTime 5 400000000) (mkTime 5 400000100);
              mkIteration [] (mkTime 5 600000000) (mkTime 5 600000100)] in
  map linear_velocity_x (pose_publisher (main_loop its n))
  = map linear_velocity_x (pose_publisher n) ++ replicate (length its) 0%float
  /\ encoder_abs (main_loop its n) = encoder_abs n
  /\ encoder_publisher (main_loop its n) = encoder_publisher n.
Proof.
  intros n its. apply (silence_heartbeat its n).
  vm_compute. repeat split.
Defined.

Lemma spinOnce_app (msgs1 msgs2 : list (Encoder * Time)) (n : Node) :
  spinOnce (msgs1 ++ msgs2) n = spinOnce msgs2 (spinOnce msgs1 n).
Proof. unfold spinOnce. apply fold_left_app. Qed.

(** X10: a deadline check that reads the same (finite) clock value as the
    last callback of its pass finds an elapsed time of zero, so it
    republishes exactly when deadline_timeout is negative: the pass
    publishes one estimate per event, and one more if and only if
    0 > deadline_timeout. *)
Theorem same_clock_check (msgs : list (Encoder * Time)) (e : Encoder)
    (t t2 : Time) (n : Node) :
  is_finite (toSec t) = true ->
  published (loop_body (mkIteration (msgs ++ [(e, t)]) t t2) n)
  = (published n + length msgs + 1
     + (if double_gt 0 (deadline_timeout n) then 1 else 0))%nat.
Proof.
  intros Hfin. unfold loop_body. cbn [pending now1 now2].
  set (n1 := spinOnce (msgs ++ [(e, t)]) n).
  assert (published n1 = (published n + length msgs + 1)%nat) as Hn1.
  { subst n1. destruct (spinOnce_published (msgs ++ [(e, t)]) n) as [-> _].
    rewrite length_app. cbn [length]. lia. }
  assert (deadline_passed t n1 = double_gt 0 (deadline_timeout n)) as Hpassed.
  { unfold deadline_passed. subst n1.
    destruct (spinOnce_config (msgs ++ [(e, t)]) n) as [_ ->].
    rewrite spinOnce_app. cbn [spinOnce fold_left].
    rewrite encoder_callback_last_publish_time, double_sub_diag by exact Hfin.
    reflexivity. }
  rewrite watchdog_cases, Hpassed.
  destruct (double_gt 0 (deadline_timeout n)).
  - unfold published in *. cbn [republished pose_publisher].
    rewrite length_app. cbn [length]. lia.
  - lia.
Qed.

Lemma same_clock_check_witness :
  published
    (loop_body (mkIteration ([] ++ [(mkEncoder 310 1000000, mkTime 5 0)])
                            (mkTime 5 0) (mkTime 5 100))
       (main_setup (mkParams None None None (Some (-1)%float))))
  = (published (main_setup (mkParams None None None (Some (-1)%float)))
     + length (@nil (Encoder * Time)) + 1
     + (if double_gt 0 (deadline_timeout
                          (main_setup (mkParams None None None (Some (-1)%float))))
        then 1 else 0))%nat.
Proof.
  apply (same_clock_check [] (mkEncoder 310 1000000) (mkTime 5 0) (mkTime 5 100)
           (main_setup (mkParams None None None (Some (-1)%float)))).
  vm_compute. reflexivity.
Defined.

(** ** The covariance loop *)

(** X9: on any 36-element array the loop [for (i = 0; i < 36; i += 7)]
    ends within six iterations, keeps the length, writes 999 at exactly the
    six diagonal positions 0, 7, ..., 35 and leaves every other element as
    it was. *)
Theorem fill_diagonal_effect (elems : list float) (fuel : nat) :
  length elems = 36%nat ->
  (6 <= fuel)%nat ->
  length (fill_diagonal fuel 0 elems) = 36%nat
  /\ forall k : nat,
       (k < 36)%nat ->
       fill_diagonal fuel 0 elems !! k
       = if on_diagonal k then Some 999%float else elems !! k.
Proof.
  intros Hlen Hfuel.
  do 6 (destruct fuel as [|fuel]; [lia|]).
  do 36 (destruct elems as [|? elems]; [discriminate Hlen|]).
  destruct elems; [|discriminate Hlen].
  destruct fuel; (split; [reflexivity|]);
    intros k Hk; do 36 (destruct k as [|k]; [reflexivity|]); lia.
Qed.

Lemma fill_diagonal_effect_witness :
  length (fill_diagonal 36 0 (replicate 36 0%float)) = 36%nat
  /\ forall k : nat,
       (k < 36)%nat ->
       fill_diagonal 36 0 (replicate 36 0%float) !! k
       = if on_diagonal k then Some 999%float else replicate 36 0%float !! k.
Proof.
  apply (fill_diagonal_effect (replicate 36 0%float) 36).
  - reflexivity.
  - lia.
Defined.

(** ** An event restarts the deadline *)

Lemma deadline_after_events (msgs : list (Encoder * Time)) (e : Encoder)
    (t t1 : Time) (n : Node) :
  deadline_passed t1 (spinOnce (msgs ++ [(e, t)]) n)
  = double_gt (toSec t1 - toSec t)%float (deadline_timeout n).
Proof.
  unfold deadline_passed.
  destruct (spinOnce_config (msgs ++ [(e, t)]) n) as [_ ->].
  rewrite spinOnce_app. cbn [spinOnce fold_left].
  rewrite encoder_callback_last_publish_time. reflexivity.
Qed.

(** X12: in a pass that handled at least one encoder event the deadline is
    measured from the clock reading of the last callback only, whatever
    happened before: the pass publishes one estimate per event, and one
    zero-velocity estimate more exactly when the check's clock is more than
    deadline_timeout past that reading. *)
Theorem event_restarts_deadline (msgs : list (Encoder * Time)) (e : Encoder)
    (t t1 t2 : Time) (n : Node) :
  let n' := loop_body (mkIteration (msgs ++ [(e, t)]) t1 t2) n in
  let late := double_gt (toSec t1 - toSec t)%float (deadline_timeout n) in
  published n' = (published n + length msgs + 1 + (if late then 1 else 0))%nat
  /\ last_publish_time n' = (if late then toSec t1 else toSec t)
  /\ map linear_velocity_x (pose_publisher n')
     = map linear_velocity_x (pose_publisher n)
       ++ map (event_velocity (ticks_per_meter n)) (map fst (msgs ++ [(e, t)]))
       ++ (if late then [0%float] else []).
Proof.
  intros n' late. subst n' late. unfold loop_body. cbn [pending now1 now2].
  pose proof (deadline_after_events msgs e t t1 n) as Hpassed.
  destruct (spinOnce_published (msgs ++ [(e, t)]) n) as [Hcount _].
  rewrite length_app in Hcount. cbn [length] in Hcount.
  assert (last_publish_time (spinOnce (msgs ++ [(e, t)]) n) = toSec t) as Hlast.
  { rewrite spinOnce_app. reflexivity. }
  rewrite watchdog_velocities, spinOnce_velocities, <- app_assoc, Hpassed.
  rewrite watchdog_cases, Hpassed.
  destruct (double_gt (toSec t1 - toSec t) (deadline_timeout n)).
  - split; [|split; reflexivity].
    unfold published in *. cbn [republished pose_publisher].
    rewrite length_app. cbn [length]. lia.
  - split; [lia|]. split; [exact Hlast|reflexivity].
Qed.
